(** * xpath.go: the compile facade and the node iterator

    A shallow embedding of package [xpath] (file xpath.go): the compile
    entry points, [Expr], [NodeIterator] and the [NodeNavigator] cursor
    interface.  Navigators are objects shared between the caller and the
    engine, so they live in a store and are named by locations; the
    package-level variable [StrictPreset] is threaded as explicit state. *)

From Stdlib Require Import ZArith Ascii String Floats.PrimFloat.
From stdpp Require Import base option list strings gmap.

(** ** Go runtime notions used by the file *)

(** Go's [int] on the 64-bit targets: arithmetic wraps around. *)
Definition int_wrap (z : Z) : Z := ((z + 2 ^ 63) `mod` 2 ^ 64 - 2 ^ 63)%Z.
Definition int_sub (a b : Z) : Z := int_wrap (a - b).

(** [error] values are observed through their message; [errors.New] and
    [fmt.Errorf] both build one from a string. *)
Inductive error := errorString (msg : string).

Definition errors_New (msg : string) : error := errorString msg.

(** [fmt.Sprintf] for a format holding one [%s] verb. *)
Fixpoint Sprintf_s (format arg : string) : string :=
  match format with
  | EmptyString => EmptyString
  | String "%"%char (String "s"%char rest) => arg +:+ rest
  | String c rest => String c (Sprintf_s rest arg)
  end.

Definition fmt_Errorf (format arg : string) : error :=
  errorString (Sprintf_s format arg).

(** What a [panic] carries: the value handed to [panic], or a run-time
    error raised by the language itself. *)
Inductive panic_value :=
  | PanicError (e : error)
  | PanicRuntime (msg : string).

Inductive outcome (A : Type) :=
  | Returns (a : A)
  | Panics (v : panic_value).
Arguments Returns {A} a.
Arguments Panics {A} v.

Fixpoint string_drop (n : nat) (str : string) : string :=
  match n, str with
  | O, _ => str
  | S n', String _ rest => string_drop n' rest
  | S _, EmptyString => EmptyString
  end.

(** The slice expression [str[i:]]: a run-time panic unless
    [0 <= i <= len(str)]. *)
Definition slice_from (str : string) (i : Z) : outcome string :=
  if bool_decide (0 ≤ i ≤ Z.of_nat (String.length str))%Z
  then Returns (string_drop (Z.to_nat i) str)
  else Panics (PanicRuntime "slice bounds out of range").

(** ** Package state *)

Record CompileOptions := { StrictEOF : bool }.

(** [CompileOptions{}], the zero value. *)
Definition CompileOptions_zero : CompileOptions := {| StrictEOF := false |}.

(** The package-level variables: only [StrictPreset]. *)
Record Package := { StrictPreset : CompileOptions }.

Definition Package_init : Package :=
  {| StrictPreset := {| StrictEOF := true |} |}.

(** Code that may read or assign package variables, and may panic. *)
Definition M (A : Type) : Type := Package → outcome A * Package.

Definition ret {A} (a : A) : M A := λ g, (Returns a, g).

Definition raise {A} (v : panic_value) : M A := λ g, (Panics v, g).

Definition bind {A B} (m : M A) (k : A → M B) : M B :=
  λ g, match m g with
       | (Returns a, g') => k a g'
       | (Panics v, g') => (Panics v, g')
       end.

Definition lift {A} (o : outcome A) : M A := λ g, (o, g).

Notation "x ←ₘ m ; k" := (bind m (λ x, k))
  (at level 100, m at next level, right associativity).

(** ** Node types *)

Inductive NodeType :=
  | RootNode
  | ElementNode
  | AttributeNode
  | TextNode
  | CommentNode
  | allNode.

(** The [iota] numbering of the constants. *)
Definition NodeType_int (t : NodeType) : Z :=
  match t with
  | RootNode => 0
  | ElementNode => 1
  | AttributeNode => 2
  | TextNode => 3
  | CommentNode => 4
  | allNode => 5
  end.

(** ** The cursor interface *)

(** [NodeNavigator]: a method that moves the receiver returns its new
    state next to the method's own result. *)
Class NodeNavigator (N : Type) := {
  nodeType : N → NodeType;
  LocalName : N → string;
  Prefix : N → string;
  Value : N → string;
  Copy : N → N;
  MoveToRoot : N → N;
  MoveToParent : N → bool * N;
  MoveToNextAttribute : N → bool * N;
  MoveToChild : N → bool * N;
  MoveToFirst : N → bool * N;
  MoveToNext : N → bool * N;
  MoveToPrevious : N → bool * N;
  MoveTo : N → N → bool * N
}.

(** Navigator objects are referred to by location.  The store only grows:
    [Copy] allocates the next location.  A location outside the store
    stands for a nil navigator, on which every method call panics. *)
Abbreviation loc := nat (only parsing).
Abbreviation Store N := (list N) (only parsing).

(** Interface [iterator] has the single method [Current]; a value of it
    is represented by the navigator that [Current] returns. *)
Abbreviation iterator := loc (only parsing).

(** ** The scanner and parser as xpath.go reads them *)

(** Modelled from the spec: the token kinds of section 3 (Token); their
    declaration is outside xpath.go, which names only the end marker
    [itemEOF]. *)
Inductive itemType :=
  | itemOperator
  | itemNumber
  | itemString
  | itemName
  | itemAxis
  | itemNodeType
  | itemFunction
  | itemPunctuation
  | itemEOF.

Global Instance itemType_eq_dec : EqDecision itemType.
Proof. solve_decision. Defined.

(** The fields of [scanner] and [parser] that [CompileWithOptionsAndNS]
    reads: [p.r.typ], [p.r.text], [p.r.pos], [p.r.currSize]. *)
Record scanner := { typ : itemType; text : string; pos : Z; currSize : Z }.
Record parser := { r : scanner }.

(** ** Expressions, iterators and values *)

(** [NodeIterator]: field [query] holds the plan object the iterator
    owns (type [Q] is the state of such an object), field [node] refers
    to a navigator object. *)
Record NodeIterator (Q : Type) := { node : loc; query : Q }.
Arguments node {Q} _.
Arguments query {Q} _.

Record Expr (Q : Type) := { s : string; q : Q }.
Arguments s {Q} _.
Arguments q {Q} _.

(** The dynamic values of [interface{}] that flow through [Evaluate]:
    the three scalars, a plan (anything implementing interface [query]),
    a [*NodeIterator], and [AOther] for nil or a value of any other
    dynamic type, named by its description. *)
Inductive any (Q : Type) :=
  | ABool (b : bool)
  | AFloat64 (f : float)
  | AString (str : string)
  | AQuery (plan : Q)
  | ANodeIterator (it : NodeIterator Q)
  | AOther (descr : string).
Arguments ABool {Q} b.
Arguments AFloat64 {Q} f.
Arguments AString {Q} str.
Arguments AQuery {Q} plan.
Arguments ANodeIterator {Q} it.
Arguments AOther {Q} descr.

(** Interface [query], declared outside xpath.go, through the three
    methods xpath.go calls.  [Select] and [Evaluate] run on a plan
    object, may change it, may read, move and copy navigators, and
    return nil ([None]) or a navigator; [Clone] builds a new plan object
    and leaves the receiver alone. *)
Class Query (N Q : Type) := {
  query_Select : Q → iterator → Store N → option loc * Q * Store N;
  query_Evaluate : Q → iterator → Store N → any Q * Q * Store N;
  query_Clone : Q → Q
}.

(** What xpath.go takes from the builder: the value [nopQuery{}] and
    function [build(expr, namespaces)], which returns a plan (or nil),
    the parser (or nil) and an error (or nil).  A nil namespace map is
    [None]. *)
Class Builder (Q : Type) := {
  nopQuery : Q;
  build : string → option (gmap string string) →
          option Q * option parser * option error
}.

Definition iteratorFunc := unit → loc.
Definition iteratorFunc_Current (f : iteratorFunc) : loc := f tt.

Section Facade.
Context {Q : Type} `{!Builder Q}.

Definition Expr_String (expr : Expr Q) : string := s expr.

Definition CompileWithOptionsAndNS (expr : string) (opts : CompileOptions)
    (namespaces : option (gmap string string))
    : M (option (Expr Q) * option error) :=
  if bool_decide (expr = "") then
    ret (None, Some (errors_New "expr expression is nil"))
  else
    let '(q0, p, err) := build expr namespaces in
    match err with
    | Some e => ret (None, Some e)
    | None =>
      let finish : M (option (Expr Q) * option error) :=
        match q0 with
        | None =>
          ret (None, Some (fmt_Errorf
            "undeclared variable in XPath expression: %s" expr))
        | Some q1 => ret (Some {| s := expr; q := q1 |}, None)
        end in
      if StrictEOF opts then
        match p with
        | Some p1 =>
          if bool_decide (typ (r p1) ≠ itemEOF) then
            rest ←ₘ lift (slice_from (text (r p1))
                     (int_sub (int_sub (pos (r p1)) (currSize (r p1))) 1));
            ret (None, Some (fmt_Errorf
              "unexpected token after end of expression: %s" rest))
          else finish
        | None => finish
        end
      else finish
    end.

Definition Compile (expr : string) : M (option (Expr Q) * option error) :=
  CompileWithOptionsAndNS expr CompileOptions_zero None.

Definition MustCompile (expr : string) : M (option (Expr Q)) :=
  res ←ₘ Compile expr;
  match res with
  | (_, Some _) => ret (Some {| s := expr; q := nopQuery |})
  | (exp, None) => ret exp
  end.

Definition CompileWithNS (expr : string)
    (namespaces : option (gmap string string))
    : M (option (Expr Q) * option error) :=
  CompileWithOptionsAndNS expr CompileOptions_zero namespaces.

Definition CompileWithOptions (expr : string) (opts : CompileOptions)
    : M (option (Expr Q) * option error) :=
  CompileWithOptionsAndNS expr opts None.
End Facade.

(** The two settings of the options, and the offset at which the
    trailing-token message cuts the scanner's text. *)
Definition strict : CompileOptions := {| StrictEOF := true |}.
Definition lenient : CompileOptions := {| StrictEOF := false |}.

Definition cut (p : parser) : Z :=
  int_sub (int_sub (pos (r p)) (currSize (r p))) 1.

Definition cut_in_text (p : parser) : Prop :=
  (0 ≤ cut p ≤ Z.of_nat (String.length (text (r p))))%Z.

Section Evaluation.
Context {N Q : Type} `{!NodeNavigator N} `{!Query N Q}.

Definition NodeIterator_Current (t : NodeIterator Q) : loc := node t.

(** [MoveNext] on iterator [t]: returns the method's result and the
    iterator as the call leaves it. *)
Definition NodeIterator_MoveNext (t : NodeIterator Q) (σ : Store N)
    : outcome (bool * NodeIterator Q) * Store N :=
  let '(n, q1, σ1) := query_Select (query t) (NodeIterator_Current t) σ in
  let t1 := {| node := node t; query := q1 |} in
  match n with
  | None => (Returns (false, t1), σ1)
  | Some n1 =>
    match σ1 !! node t1, σ1 !! n1 with
    | Some a, Some b =>
      let '(ok, a1) := MoveTo a b in
      let σ2 := <[node t1 := a1]> σ1 in
      if ok then (Returns (true, t1), σ2)
      else
        match σ2 !! n1 with
        | Some b1 =>
          (Returns (true, {| node := length σ2; query := q1 |}),
           σ2 ++ [Copy b1])
        | None => (Panics (PanicRuntime "nil pointer dereference"), σ2)
        end
    | _, _ => (Panics (PanicRuntime "nil pointer dereference"), σ1)
    end
  end.

(** [Evaluate] runs the scalar evaluation on the stored plan itself, so
    it returns the expression as the call leaves it. *)
Definition Expr_Evaluate (expr : Expr Q) (root : loc) (σ : Store N)
    : any Q * Expr Q * Store N :=
  let '(val, q1, σ1) :=
    query_Evaluate (q expr) (iteratorFunc_Current (λ _, root)) σ in
  let expr1 := {| s := s expr; q := q1 |} in
  match val with
  | AQuery _ =>
    (ANodeIterator {| query := query_Clone (q expr1); node := root |},
     expr1, σ1)
  | _ => (val, expr1, σ1)
  end.

Definition Expr_Select (expr : Expr Q) (root : loc) : NodeIterator Q :=
  {| query := query_Clone (q expr); node := root |}.
End Evaluation.



(** The navigator that [n.Copy()] reads in [MoveNext] once [MoveTo] has
    run on the held one: the two may be the same object. *)
Definition matched_after {N} (held n : loc) (a1 b : N) : N :=
  if decide (n = held) then a1 else b.

(** What the doc comments of [Copy] and [MoveTo] promise, and the cursor
    contract's rule that a failed move leaves the cursor where it was,
    in terms of the place [place n] a navigator is at. *)
Class NavigatorContract {N P : Type} `{!NodeNavigator N} (place : N → P)
    : Prop := {
  Copy_place a : place (Copy a) = place a;
  MoveTo_place a b a1 : MoveTo a b = (true, a1) → place a1 = place b;
  MoveTo_stay a b a1 : MoveTo a b = (false, a1) → place a1 = place a
}.

Section Deprecated.
Context {N Q : Type} `{!Query N Q} `{!Builder Q}.

(** The package-level [Select]. *)
Definition Select (root : loc) (expr : string) : M (NodeIterator Q) :=
  res ←ₘ Compile expr;
  match res with
  | (_, Some err) => raise (PanicError err)
  | (Some exp, None) => ret (Expr_Select exp root)
  | (None, None) => raise (PanicRuntime "nil pointer dereference")
  end.
End Deprecated.

(** ** A host tree and a plan to run the engine on

    The cursor contract is implemented by host trees and the plans by the
    builder; to evaluate the functions above on concrete inputs this
    module supplies a small host tree (a root with a row of named child
    elements), a child-axis step over any navigator, and a builder that
    knows a handful of expressions. *)
Module Fixture.

(** A cursor over the tree whose root has the children [doc], in
    order: [at_ = None] is the root, [Some i] the [i]-th child. *)
Record ListNav := { doc : list string; at_ : option nat }.

Definition stay (n : ListNav) : bool * ListNav := (false, n).
Definition go (n : ListNav) (i : option nat) : bool * ListNav :=
  (true, {| doc := doc n; at_ := i |}).

Definition ListNav_MoveTo (n other : ListNav) : bool * ListNav :=
  if bool_decide (doc n = doc other) then go n (at_ other) else stay n.

Global Instance ListNav_navigator : NodeNavigator ListNav := {|
  nodeType n := match at_ n with None => RootNode | Some _ => ElementNode end;
  LocalName n :=
    match at_ n with None => "" | Some i => default "" (doc n !! i) end;
  Prefix _ := "";
  Value _ := "";
  Copy n := n;
  MoveToRoot n := {| doc := doc n; at_ := None |};
  MoveToParent n :=
    match at_ n with None => stay n | Some _ => go n None end;
  MoveToNextAttribute n := stay n;
  MoveToChild n :=
    match at_ n, doc n with
    | None, _ :: _ => go n (Some 0)
    | _, _ => stay n
    end;
  MoveToFirst n :=
    match at_ n with Some (S _) => go n (Some 0) | _ => stay n end;
  MoveToNext n :=
    match at_ n with
    | Some i =>
      if bool_decide (S i < length (doc n)) then go n (Some (S i))
      else stay n
    | None => stay n
    end;
  MoveToPrevious n :=
    match at_ n with Some (S i) => go n (Some i) | _ => stay n end;
  MoveTo := ListNav_MoveTo
|}.

(** A child-axis step with a name test.  The plan keeps one navigator
    of its own, moves it from match to match and hands it out. *)
Inductive phase := Fresh | Running (own : loc) | Exhausted.
Record childStep := { want : string; bound : nat; state : phase }.

Definition restart (c : childStep) : childStep :=
  {| want := want c; bound := bound c; state := Fresh |}.
Definition enter (c : childStep) (ph : phase) : childStep :=
  {| want := want c; bound := bound c; state := ph |}.

Section Step.
Context {N : Type} `{!NodeNavigator N}.

(** Walk the siblings from [c] on until the name matches. *)
Fixpoint seek (name : string) (fuel : nat) (c : N) : option N :=
  match fuel with
  | O => None
  | S fuel' =>
    if bool_decide (LocalName c = name) then Some c
    else
      let '(ok, c1) := MoveToNext c in
      if ok then seek name fuel' c1 else None
  end.

Definition childStep_Select (c : childStep) (t : iterator) (σ : Store N)
    : option loc * childStep * Store N :=
  match state c with
  | Exhausted => (None, c, σ)
  | Fresh =>
    match σ !! t with
    | None => (None, enter c Exhausted, σ)
    | Some a =>
      let '(ok, k) := MoveToChild (Copy a) in
      match (if ok then seek (want c) (bound c) k else None) with
      | Some m => (Some (length σ), enter c (Running (length σ)), σ ++ [m])
      | None => (None, enter c Exhausted, σ)
      end
    end
  | Running own =>
    match σ !! own with
    | None => (None, enter c Exhausted, σ)
    | Some k =>
      let '(ok, k1) := MoveToNext k in
      match (if ok then seek (want c) (bound c) k1 else None) with
      | Some m => (Some own, c, <[own := m]> σ)
      | None => (None, enter c Exhausted, σ)
      end
    end
  end.

Global Instance childStep_query : Query N childStep := {|
  query_Select := childStep_Select;
  query_Evaluate c _ σ := (AQuery (restart c), restart c, σ);
  query_Clone := restart
|}.

(** Advance an iterator until it is exhausted (at most [fuel] times),
    collecting the navigator [Current] shows after each match. *)
Fixpoint drain {Q : Type} `{!Query N Q} (fuel : nat)
    (t : NodeIterator Q) (σ : Store N)
    : list (option N) * NodeIterator Q * Store N :=
  match fuel with
  | O => ([], t, σ)
  | S fuel' =>
    match NodeIterator_MoveNext t σ with
    | (Returns (true, t1), σ1) =>
      let '(found, t2, σ2) := drain fuel' t1 σ1 in
      (σ1 !! NodeIterator_Current t1 :: found, t2, σ2)
    | (_, σ1) => ([], t, σ1)
    end
  end.
End Step.

(** A plan that hands out one given navigator, once. *)
Record handOut := { item : option loc }.

Global Instance handOut_query {N : Type} : Query N handOut := {|
  query_Select h _ σ := (item h, {| item := None |}, σ);
  query_Evaluate h _ σ := (AQuery h, h, σ);
  query_Clone h := h
|}.

Definition after (src : string) (kind : itemType) : parser :=
  {| r := {| typ := kind; text := src;
             pos := Z.of_nat (String.length src); currSize := 1 |} |}.

Definition step (name : string) : childStep :=
  {| want := name; bound := 16; state := Fresh |}.

(** A builder that knows four expressions: a step, a step followed by
    a stray name, a variable reference (no error and no plan, the case
    the facade reports as an undeclared variable), and a variable
    reference followed by a stray number. *)
Definition toy_build (expr : string) (ns : option (gmap string string))
    : option childStep * option parser * option error :=
  if bool_decide (expr = "a") then
    (Some (step "a"), Some (after expr itemEOF), None)
  else if bool_decide (expr = "a b") then
    (Some (step "a"), Some (after expr itemName), None)
  else if bool_decide (expr = "$x") then
    (None, Some (after expr itemEOF), None)
  else if bool_decide (expr = "$x 1") then
    (None, Some (after expr itemNumber), None)
  else
    (None, None, Some (errorString (expr +:+ " has an invalid token"))).

Global Instance toy_builder : Builder childStep := {|
  nopQuery := {| want := ""; bound := 0; state := Exhausted |};
  build := toy_build
|}.




(** The tree of the spec's examples: root with children a, b, a. *)
Definition aba : list string := ["a"; "b"; "a"].
Definition at_root : ListNav := {| doc := aba; at_ := None |}.
Definition at_child (i : nat) : ListNav := {| doc := aba; at_ := Some i |}.

(** A cursor into another tree. *)
Definition elsewhere : ListNav := {| doc := ["z"]; at_ := None |}.

Definition expr_a : Expr childStep := {| s := "a"; q := step "a" |}.

(** The place of a cursor: its tree and its position in it. *)
Definition whereabouts (n : ListNav) : list string * option nat :=
  (doc n, at_ n).
End Fixture.

(** * Properties *)

Section Tests.
Import Fixture.

Example Sprintf_s_example :
  Sprintf_s "undeclared variable in XPath expression: %s" "$x"
  = "undeclared variable in XPath expression: $x".
Proof. reflexivity. Qed.

Example slice_from_example : slice_from "1 1" 1 = Returns " 1".
Proof. reflexivity. Qed.

Example slice_from_negative :
  slice_from "1" (-1) = Panics (PanicRuntime "slice bounds out of range").
Proof. reflexivity. Qed.

Example compile_a :
  Compile "a" Package_init = (Returns (Some expr_a, None), Package_init).
Proof. reflexivity. Qed.

Example compile_strict_trailing :
  CompileWithOptions "a b" {| StrictEOF := true |} Package_init
  = (Returns (None, Some (errorString
       "unexpected token after end of expression:  b")), Package_init).
Proof. reflexivity. Qed.

Example drain_expr_a :
  (drain 8 (Expr_Select expr_a 0) [at_root]).1.1
  = [Some (at_child 0); Some (at_child 2)].
Proof. reflexivity. Qed.
End Tests.

(** ** The compile facade *)

Section FacadeProps.
Context {Q : Type} `{!Builder Q}.

Implicit Types (e : string) (opts : CompileOptions) (g : Package).
Implicit Types (ns : option (gmap string string)).

Ltac facade :=
  unfold Compile, CompileWithNS, CompileWithOptions, CompileWithOptionsAndNS,
    bind, lift, ret, raise; simpl.

Lemma compile_empty opts ns g :
  CompileWithOptionsAndNS "" opts ns g
  = (Returns (None, Some (errors_New "expr expression is nil")), g).
Proof. reflexivity. Qed.

(** Without the strict flag the facade is the builder's answer, read
    off case by case. *)
Lemma compile_lenient e ns g :
  e ≠ "" →
  CompileWithOptionsAndNS e lenient ns g =
  (Returns
     match build e ns with
     | (_, _, Some err) => (None, Some err)
     | (None, _, None) =>
       (None, Some (fmt_Errorf
          "undeclared variable in XPath expression: %s" e))
     | (Some q1, _, None) => (Some {| s := e; q := q1 |}, None)
     end, g).
Proof.
  intros He. facade. rewrite bool_decide_eq_false_2 by done.
  destruct (build e ns) as [[[q1|] p] [err|]]; reflexivity.
Qed.

Lemma compile_strict_trailing_token e ns g q0 p1 :
  e ≠ "" → build e ns = (q0, Some p1, None) →
  typ (r p1) ≠ itemEOF → cut_in_text p1 →
  CompileWithOptionsAndNS e strict ns g =
  (Returns (None, Some (fmt_Errorf
     "unexpected token after end of expression: %s"
     (string_drop (Z.to_nat (cut p1)) (text (r p1))))), g).
Proof.
  intros He Hb Ht Hc. facade. rewrite bool_decide_eq_false_2 by done.
  rewrite Hb. rewrite bool_decide_eq_true_2 by done.
  unfold slice_from. fold (cut p1).
  rewrite bool_decide_eq_true_2 by exact Hc. reflexivity.
Qed.

Lemma compile_strict_out_of_text e ns g q0 p1 :
  e ≠ "" → build e ns = (q0, Some p1, None) →
  typ (r p1) ≠ itemEOF → ¬ cut_in_text p1 →
  CompileWithOptionsAndNS e strict ns g =
  (Panics (PanicRuntime "slice bounds out of range"), g).
Proof.
  intros He Hb Ht Hc. facade. rewrite bool_decide_eq_false_2 by done.
  rewrite Hb. rewrite bool_decide_eq_true_2 by done.
  unfold slice_from. fold (cut p1).
  rewrite bool_decide_eq_false_2 by exact Hc. reflexivity.
Qed.

Lemma compile_whole_input e ns g opts :
  (∀ q0 p1 err, build e ns = (q0, Some p1, err) → typ (r p1) = itemEOF) →
  CompileWithOptionsAndNS e opts ns g
  = CompileWithOptionsAndNS e lenient ns g.
Proof.
  intros Hp. facade. destruct (bool_decide (e = "")); [done|].
  destruct (build e ns) as [[q0 p] [err|]] eqn:Hb; [done|].
  destruct (StrictEOF opts); [|done].
  destruct p as [p1|]; [|done].
  rewrite bool_decide_eq_false_2; [done|].
  intros Hne. apply Hne. eapply Hp. reflexivity.
Qed.

(** Every entry point leaves the package variables as they were. *)
Lemma compile_keeps_package e opts ns g :
  (CompileWithOptionsAndNS e opts ns g).2 = g.
Proof.
  facade. destruct (bool_decide (e = "")); [done|].
  destruct (build e ns) as [[[q1|] [p1|]] [err|]];
    destruct (StrictEOF opts); try done;
    destruct (bool_decide (typ (r p1) ≠ itemEOF)); try done;
    destruct (slice_from _ _); done.
Qed.

(** ... and never reads them. *)
Lemma compile_ignores_package e opts ns g g' :
  (CompileWithOptionsAndNS e opts ns g).1
  = (CompileWithOptionsAndNS e opts ns g').1.
Proof.
  facade. destruct (bool_decide (e = "")); [done|].
  destruct (build e ns) as [[[q1|] [p1|]] [err|]];
    destruct (StrictEOF opts); try done;
    destruct (bool_decide (typ (r p1) ≠ itemEOF)); try done;
    destruct (slice_from _ _); done.
Qed.

(** An error comes with a nil expression. *)
Lemma compile_error_nil e opts ns g exp err g' :
  CompileWithOptionsAndNS e opts ns g = (Returns (exp, Some err), g') →
  exp = None ∧ g' = g.
Proof.
  facade. destruct (bool_decide (e = "")); [by intros [= <- _ <-]|].
  destruct (build e ns) as [[[q1|] [p1|]] [err1|]];
    destruct (StrictEOF opts); try (by intros [= <- _ <-]);
    destruct (bool_decide (typ (r p1) ≠ itemEOF));
    try (by intros [= <- _ <-]);
    destruct (slice_from _ _); try (by intros [= <- _ <-]); done.
Qed.

(** [Compile] returns: an expression holding the source text, or an
    error and nil. *)
Lemma Compile_returns e g :
  (∃ q1, Compile e g = (Returns (Some {| s := e; q := q1 |}, None), g))
  ∨ (∃ err, Compile e g = (Returns (None, Some err), g)).
Proof.
  destruct (decide (e = "")) as [->|He].
  - right. eexists. reflexivity.
  - unfold Compile. fold lenient. rewrite compile_lenient by done.
    destruct (build e None) as [[[q1|] p] [err|]]; eauto.
Qed.
End FacadeProps.

Section FacadeClaims.
Context {Q : Type} `{!Builder Q}.

Implicit Types (e : string) (opts : CompileOptions) (g : Package).
Implicit Types (ns : option (gmap string string)).

(** C1: compiling the empty string returns the empty-expression error
    and a nil expression, through each of the four entry points, for
    every options value and every namespace map (nil included). *)
Theorem C1_empty_expression opts ns g :
  let failure : outcome (option (Expr Q) * option error) :=
    Returns (None, Some (errors_New "expr expression is nil")) in
  Compile "" g = (failure, g)
  ∧ CompileWithNS "" ns g = (failure, g)
  ∧ CompileWithOptions "" opts g = (failure, g)
  ∧ CompileWithOptionsAndNS "" opts ns g = (failure, g).
Proof. repeat split; apply compile_empty. Qed.

(** C2 (amended): when the parser stops at the end marker, strict and
    lenient compilation return the same result.  When the builder
    reports no error, returns a plan and leaves the parser before the
    end marker, lenient compilation returns the expression, and strict
    compilation returns the trailing-token error, whose message is the
    scanner text from offset pos - currSize - 1 (an offset inside the
    text).  When the builder reports no error and no plan, lenient
    compilation returns the undeclared-variable error. *)
Theorem C2_strict_and_lenient e ns g :
  ((∀ q0 p1 err, build e ns = (q0, Some p1, err) → typ (r p1) = itemEOF) →
   CompileWithOptionsAndNS e strict ns g
   = CompileWithOptionsAndNS e lenient ns g)
  ∧ (∀ q1 p1,
      e ≠ "" → build e ns = (Some q1, Some p1, None) →
      typ (r p1) ≠ itemEOF → cut_in_text p1 →
      CompileWithOptionsAndNS e lenient ns g
      = (Returns (Some {| s := e; q := q1 |}, None), g)
      ∧ CompileWithOptionsAndNS e strict ns g
        = (Returns (None, Some (fmt_Errorf
             "unexpected token after end of expression: %s"
             (string_drop (Z.to_nat (cut p1)) (text (r p1))))), g))
  ∧ (∀ p,
      e ≠ "" → build e ns = (None, p, None) →
      CompileWithOptionsAndNS e lenient ns g
      = (Returns (None, Some (fmt_Errorf
           "undeclared variable in XPath expression: %s" e)), g)).
Proof.
  split; [|split].
  - apply compile_whole_input.
  - intros q1 p1 He Hb Ht Hc. split.
    + rewrite compile_lenient by done. by rewrite Hb.
    + by eapply compile_strict_trailing_token.
  - intros p He Hb. rewrite compile_lenient by done. by rewrite Hb.
Qed.


(** C7: whenever an entry point returns a non-nil error, the
    expression it returns is nil and the package variables are as they
    were before the call. *)
Theorem C7_error_means_nil e opts ns g exp err g' :
  Compile e g = (Returns (exp, Some err), g')
  ∨ CompileWithNS e ns g = (Returns (exp, Some err), g')
  ∨ CompileWithOptions e opts g = (Returns (exp, Some err), g')
  ∨ CompileWithOptionsAndNS e opts ns g = (Returns (exp, Some err), g') →
  exp = None ∧ g' = g.
Proof.
  intros [H|[H|[H|H]]]; eapply compile_error_nil; exact H.
Qed.

(** C8: the three short entry points return what
    [CompileWithOptionsAndNS] returns at the zero options and the nil
    map, and the result of compiling is the same whatever the package
    variable [StrictPreset] holds, which no entry point changes. *)
Theorem C8_no_implicit_options e opts ns g g' :
  (Compile e g).1 = (CompileWithOptionsAndNS e CompileOptions_zero None g').1
  ∧ (CompileWithNS e ns g).1
    = (CompileWithOptionsAndNS e CompileOptions_zero ns g').1
  ∧ (CompileWithOptions e opts g).1
    = (CompileWithOptionsAndNS e opts None g').1
  ∧ (Compile e g).2 = g
  ∧ (CompileWithNS e ns g).2 = g
  ∧ (CompileWithOptions e opts g).2 = g
  ∧ (CompileWithOptionsAndNS e opts ns g).2 = g.
Proof.
  repeat split;
    first [apply compile_ignores_package | apply compile_keeps_package].
Qed.
End FacadeClaims.

(** ** The node iterator *)

Section IteratorProps.
Context {N Q : Type} `{!NodeNavigator N} `{!Query N Q}.

Implicit Types (t : NodeIterator Q) (σ : Store N) (l n : loc).

Lemma MoveNext_exhausted t σ q1 σ1 :
  query_Select (query t) (node t) σ = (None, q1, σ1) →
  NodeIterator_MoveNext t σ
  = (Returns (false, {| node := node t; query := q1 |}), σ1).
Proof.
  intros Hs. unfold NodeIterator_MoveNext, NodeIterator_Current.
  by rewrite Hs.
Qed.

Lemma MoveNext_moved t σ n q1 σ1 a b a1 :
  query_Select (query t) (node t) σ = (Some n, q1, σ1) →
  σ1 !! node t = Some a → σ1 !! n = Some b → MoveTo a b = (true, a1) →
  NodeIterator_MoveNext t σ
  = (Returns (true, {| node := node t; query := q1 |}),
     <[node t := a1]> σ1).
Proof.
  intros Hs Ha Hb Hm. unfold NodeIterator_MoveNext, NodeIterator_Current.
  rewrite Hs. simpl. by rewrite Ha, Hb, Hm.
Qed.

Lemma MoveNext_copied t σ n q1 σ1 a b a1 :
  query_Select (query t) (node t) σ = (Some n, q1, σ1) →
  σ1 !! node t = Some a → σ1 !! n = Some b → MoveTo a b = (false, a1) →
  NodeIterator_MoveNext t σ
  = (Returns (true, {| node := length σ1; query := q1 |}),
     <[node t := a1]> σ1 ++ [Copy (matched_after (node t) n a1 b)]).
Proof.
  intros Hs Ha Hb Hm. unfold NodeIterator_MoveNext, NodeIterator_Current.
  rewrite Hs. simpl. rewrite Ha, Hb, Hm. unfold matched_after.
  destruct (decide (n = node t)) as [->|Hne].
  - rewrite list_lookup_insert_eq by (by eapply lookup_lt_Some).
    by rewrite length_insert.
  - rewrite list_lookup_insert_ne by done. rewrite Hb.
    by rewrite length_insert.
Qed.

(** [MoveNext] itself writes to one existing navigator only: the one
    the iterator holds. *)
Lemma MoveNext_frame t σ n q1 σ1 a b l c :
  query_Select (query t) (node t) σ = (Some n, q1, σ1) →
  σ1 !! node t = Some a → σ1 !! n = Some b → σ1 !! l = Some c →
  (NodeIterator_MoveNext t σ).2 !! l
  = Some (if decide (l = node t) then (MoveTo a b).2 else c).
Proof.
  intros Hs Ha Hb Hc.
  assert (l < length σ1) as Hl by (by eapply lookup_lt_Some).
  destruct (MoveTo a b) as [[] a1] eqn:Hm.
  - erewrite MoveNext_moved by done. simpl.
    destruct (decide (l = node t)) as [->|Hne].
    + by rewrite list_lookup_insert_eq.
    + by rewrite list_lookup_insert_ne.
  - erewrite MoveNext_copied by done. simpl.
    rewrite lookup_app_l by (by rewrite length_insert).
    destruct (decide (l = node t)) as [->|Hne].
    + by rewrite list_lookup_insert_eq.
    + by rewrite list_lookup_insert_ne.
Qed.

Section Places.
Context {P : Type} (place : N → P) `{!NavigatorContract place}.

Lemma matched_after_place held n a b a1 σ1 :
  σ1 !! held = Some a → σ1 !! n = Some b → MoveTo a b = (false, a1) →
  place (Copy (matched_after held n a1 b)) = place b.
Proof.
  intros Ha Hb Hm. rewrite (Copy_place (place:=place)). unfold matched_after.
  destruct (decide (n = held)) as [->|]; [|done].
  rewrite (MoveTo_stay (place:=place) _ _ _ Hm). congruence.
Qed.
End Places.
End IteratorProps.

Section EvaluationClaims.
Context {N Q : Type} `{!NodeNavigator N} `{!Query N Q}.

Implicit Types (t : NodeIterator Q) (σ : Store N) (expr : Expr Q).

Lemma Evaluate_node_set expr root σ plan q1 σ1 :
  query_Evaluate (q expr) root σ = (AQuery plan, q1, σ1) →
  Expr_Evaluate expr root σ
  = (ANodeIterator {| node := root; query := query_Clone q1 |},
     {| s := s expr; q := q1 |}, σ1).
Proof.
  intros He. unfold Expr_Evaluate, iteratorFunc_Current. by rewrite He.
Qed.

(** C4 (amended): [Expr.Select] and the node-set branch of
    [Expr.Evaluate] pair a [Clone] of the compiled plan with the
    navigator the caller passed in, not with a [Copy] of it.  Advancing
    the iterator repositions that navigator with [MoveTo] when
    [MoveTo] succeeds; when [MoveTo] fails the caller's navigator stays
    where it was and the iterator goes on with a [Copy] of the
    match. *)
Theorem C4_iterator_holds_callers_navigator {P : Type} (place : N → P)
    `{!NavigatorContract place} expr root σ :
  Expr_Select expr root = {| node := root; query := query_Clone (q expr) |}
  ∧ (∀ plan q1 σ1,
      query_Evaluate (q expr) root σ = (AQuery plan, q1, σ1) →
      (Expr_Evaluate expr root σ).1.1
      = ANodeIterator {| node := root; query := query_Clone q1 |}
      ∧ (Expr_Evaluate expr root σ).2 = σ1)
  ∧ (∀ n q1 σ1 a b,
      query_Select (query_Clone (q expr)) root σ = (Some n, q1, σ1) →
      σ1 !! root = Some a → σ1 !! n = Some b →
      ∃ t' σ',
        NodeIterator_MoveNext (Expr_Select expr root) σ
        = (Returns (true, t'), σ')
        ∧ σ' !! root = Some (MoveTo a b).2
        ∧ if (MoveTo a b).1
          then NodeIterator_Current t' = root
               ∧ place (MoveTo a b).2 = place b
          else NodeIterator_Current t' = length σ1
               ∧ place (MoveTo a b).2 = place a).
Proof.
  split; [done|]. split.
  - intros plan q1 σ1 He. by rewrite (Evaluate_node_set _ _ _ _ _ _ He).
  - intros n q1 σ1 a b Hs Ha Hb.
    assert (root < length σ1) as Hl by (by eapply lookup_lt_Some).
    destruct (MoveTo a b) as [[] a1] eqn:Hm; simpl.
    + do 2 eexists. split; [by eapply MoveNext_moved|]. simpl.
      split; [by rewrite list_lookup_insert_eq|]. split; [done|].
      by eapply (MoveTo_place (place:=place)).
    + do 2 eexists. split; [by eapply MoveNext_copied|]. simpl.
      split.
      * rewrite lookup_app_l by (by rewrite length_insert).
        by rewrite list_lookup_insert_eq.
      * split; [done|]. by eapply (MoveTo_stay (place:=place)).
Qed.



(** C10: when the plan yields no match, [MoveNext] returns false and
    [Current] is the navigator it was; when the plan yields a match,
    [MoveNext] returns true and [Current] is then at the place of the
    match: the held navigator moved there by [MoveTo], or, when
    [MoveTo] fails, a [Copy] of the match that replaces the held
    navigator. *)
Theorem C10_MoveNext {P : Type} (place : N → P)
    `{!NavigatorContract place} t σ :
  (∀ q1 σ1,
    query_Select (query t) (NodeIterator_Current t) σ = (None, q1, σ1) →
    ∃ t', NodeIterator_MoveNext t σ = (Returns (false, t'), σ1)
          ∧ NodeIterator_Current t' = NodeIterator_Current t)
  ∧ (∀ n q1 σ1 a b,
      query_Select (query t) (NodeIterator_Current t) σ = (Some n, q1, σ1) →
      σ1 !! NodeIterator_Current t = Some a → σ1 !! n = Some b →
      ∃ t' σ',
        NodeIterator_MoveNext t σ = (Returns (true, t'), σ')
        ∧ place <$> σ' !! NodeIterator_Current t' = Some (place b)
        ∧ if (MoveTo a b).1
          then NodeIterator_Current t' = NodeIterator_Current t
               ∧ σ' = <[NodeIterator_Current t := (MoveTo a b).2]> σ1
          else NodeIterator_Current t' = length σ1
               ∧ σ' = <[NodeIterator_Current t := (MoveTo a b).2]> σ1
                      ++ [Copy (matched_after (NodeIterator_Current t) n
                                  (MoveTo a b).2 b)]).
Proof.
  unfold NodeIterator_Current. split.
  - intros q1 σ1 Hs. eexists. split; [by apply MoveNext_exhausted|]. done.
  - intros n q1 σ1 a b Hs Ha Hb.
    assert (node t < length σ1) as Hl by (by eapply lookup_lt_Some).
    destruct (MoveTo a b) as [[] a1] eqn:Hm; simpl.
    + do 2 eexists. split; [by eapply MoveNext_moved|]. simpl.
      split; [|done]. rewrite list_lookup_insert_eq by done. simpl.
      by rewrite (MoveTo_place (place:=place) _ _ _ Hm).
    + do 2 eexists. split; [by eapply MoveNext_copied|]. simpl.
      split; [|done].
      rewrite lookup_app_r by (by rewrite length_insert).
      rewrite length_insert, Nat.sub_diag. simpl.
      by erewrite matched_after_place.
Qed.
End EvaluationClaims.

Section DeprecatedClaims.
Context {N Q : Type} `{!Query N Q} `{!Builder Q}.

(** C9: the package-level [Select] returns the iterator of
    [Expr.Select] exactly when [Compile] succeeds, and panics with the
    error of [Compile] when [Compile] fails. *)
Theorem C9_Select_panics (root : loc) (e : string) (g : Package) :
  (∃ exp, Compile e g = (Returns (Some exp, None), g)
          ∧ Select (N:=N) root e g
            = (Returns (Expr_Select (N:=N) exp root), g))
  ∨ (∃ err, Compile e g = (Returns (None, Some err), g)
            ∧ Select (N:=N) root e g = (Panics (PanicError err), g)).
Proof.
  destruct (Compile_returns e g) as [[q1 Hc]|[err Hc]].
  - left. eexists. split; [exact Hc|]. unfold Select, bind. by rewrite Hc.
  - right. eexists. split; [exact Hc|]. unfold Select, bind. by rewrite Hc.
Qed.
End DeprecatedClaims.

(** ** The claims on the host tree of the spec's examples *)

Section OnTheFixture.
Import Fixture.

Lemma ListNav_contract : NavigatorContract whereabouts.
Proof.
  split.
  - done.
  - intros [da pa] [db pb] a1. simpl. unfold ListNav_MoveTo, go, stay.
    simpl. case_bool_decide; [|done]. intros [= <-]. simpl in *.
    unfold whereabouts. simpl. congruence.
  - intros [da pa] [db pb] a1. simpl. unfold ListNav_MoveTo, go, stay.
    simpl. case_bool_decide; [done|]. by intros [= <-].
Qed.

Example MoveNext_other_tree :
  NodeIterator_MoveNext {| node := 0; query := {| item := Some 1 |} |}
    [elsewhere; at_child 1]
  = (Returns (true, {| node := 2; query := {| item := None |} |}),
     [elsewhere; at_child 1; at_child 1]).
Proof. reflexivity. Qed.

Example MoveNext_same_tree :
  NodeIterator_MoveNext {| node := 0; query := {| item := Some 1 |} |}
    [at_root; at_child 1]
  = (Returns (true, {| node := 0; query := {| item := None |} |}),
     [at_child 1; at_child 1]).
Proof. reflexivity. Qed.

Example MoveNext_nil_navigator :
  NodeIterator_MoveNext {| node := 7; query := {| item := Some 0 |} |}
    [at_root]
  = (Panics (PanicRuntime "nil pointer dereference"), [at_root]).
Proof. reflexivity. Qed.

(** Strict and lenient compilation of ["a b"] and of ["a"]. *)
Lemma C2_strict_and_lenient_witness :
  (CompileWithOptionsAndNS "a b" lenient None Package_init
   = (Returns (Some {| s := "a b"; q := step "a" |}, None), Package_init)
   ∧ CompileWithOptionsAndNS "a b" strict None Package_init
     = (Returns (None, Some (errorString
          "unexpected token after end of expression:  b")), Package_init))
  ∧ CompileWithOptionsAndNS "a" strict None Package_init
    = CompileWithOptionsAndNS "a" lenient None Package_init.
Proof.
  split.
  - apply (proj1 (proj2 (C2_strict_and_lenient "a b" None Package_init))
             (step "a") (after "a b" itemName)).
    + discriminate.
    + reflexivity.
    + discriminate.
    + unfold cut_in_text. vm_compute. split; discriminate.
  - apply (proj1 (C2_strict_and_lenient "a" None Package_init)).
    intros q0 p1 err. vm_compute. intros [= _ <- _]. reflexivity.
Defined.

(** Parsing ["$x 1"] reports no error and stops before the end marker,
    and lenient compilation fails all the same. *)
Lemma C2_counterexample :
  build "$x 1" None = (None, Some (after "$x 1" itemNumber), None)
  ∧ typ (r (after "$x 1" itemNumber)) ≠ itemEOF
  ∧ CompileWithOptionsAndNS "$x 1" lenient None Package_init
    = (Returns (None, Some (errorString
         "undeclared variable in XPath expression: $x 1")), Package_init)
  ∧ ¬ ∃ exp : Expr childStep,
        CompileWithOptionsAndNS "$x 1" lenient None Package_init
        = (Returns (Some exp, None), Package_init).
Proof.
  split; [reflexivity|]. split; [discriminate|]. split; [reflexivity|].
  intros [exp H]. vm_compute in H. discriminate H.
Qed.

Lemma C7_error_means_nil_witness :
  Compile "$x" Package_init
  = (Returns (None, Some (errorString
       "undeclared variable in XPath expression: $x")), Package_init)
  ∧ (None : option (Expr childStep)) = None ∧ Package_init = Package_init.
Proof.
  split; [reflexivity|].
  apply (C7_error_means_nil "$x" lenient None Package_init None
           (errorString "undeclared variable in XPath expression: $x")
           Package_init).
  left. reflexivity.
Defined.

(** The first advance of an iterator over [expr_a] started from the
    caller's navigator (location 0, at the root). *)
Lemma C4_iterator_holds_callers_navigator_witness :
  ∃ t' σ',
    NodeIterator_MoveNext (Expr_Select expr_a 0) [at_root]
    = (Returns (true, t'), σ')
    ∧ σ' !! 0 = Some (at_child 0)
    ∧ NodeIterator_Current t' = 0
    ∧ whereabouts (at_child 0) = whereabouts (at_child 0).
Proof.
  apply (proj2 (proj2 (C4_iterator_holds_callers_navigator whereabouts
                         (NavigatorContract0 := ListNav_contract)
                         expr_a 0 [at_root]))
           1 (enter (step "a") (Running 1)) [at_root; at_child 0]
           at_root (at_child 0)); reflexivity.
Defined.

(** The caller's navigator sits at the root before the iterator is
    advanced and at the first child after. *)
Lemma C4_counterexample :
  let t := Expr_Select expr_a 0 in
  ∃ t' σ',
    NodeIterator_MoveNext t [at_root] = (Returns (true, t'), σ')
    ∧ NodeIterator_Current t = 0
    ∧ [at_root] !! 0 = Some at_root
    ∧ σ' !! 0 = Some (at_child 0)
    ∧ whereabouts (at_child 0) ≠ whereabouts at_root.
Proof.
  do 2 eexists. split; [reflexivity|]. repeat split. discriminate.
Qed.





Lemma C10_MoveNext_witness :
  ∃ t' σ',
    NodeIterator_MoveNext (Expr_Select expr_a 0) [at_root]
    = (Returns (true, t'), σ')
    ∧ whereabouts <$> σ' !! NodeIterator_Current t'
      = Some (whereabouts (at_child 0))
    ∧ NodeIterator_Current t' = NodeIterator_Current (Expr_Select expr_a 0)
    ∧ σ' = <[NodeIterator_Current (Expr_Select expr_a 0) := at_child 0]>
             [at_root; at_child 0].
Proof.
  exact (proj2 (C10_MoveNext whereabouts
                  (NavigatorContract0 := ListNav_contract)
                  (Expr_Select expr_a 0) [at_root])
           1 (enter (step "a") (Running 1)) [at_root; at_child 0]
           at_root (at_child 0) eq_refl eq_refl eq_refl).
Defined.
End OnTheFixture.

(** * Further properties of the facade *)

Section FacadeMore.
Context {Q : Type} `{!Builder Q}.

Implicit Types (e : string) (opts : CompileOptions) (g : Package).
Implicit Types (ns : option (gmap string string)).

Ltac run_facade H :=
  unfold CompileWithOptionsAndNS, bind, lift, ret, raise, slice_from in H;
  repeat (case_match; simplify_eq/=);
  repeat match goal with
         | B : bool_decide _ = false |- _ => apply bool_decide_eq_false_1 in B
         | B : bool_decide _ = true |- _ => apply bool_decide_eq_true_1 in B
         end.

(** A compile that reports no error went through every test. *)
Lemma compile_success_inv e opts ns g exp g' :
  CompileWithOptionsAndNS e opts ns g = (Returns (exp, None), g') →
  ∃ q1 p, build e ns = (Some q1, p, None)
          ∧ exp = Some {| s := e; q := q1 |} ∧ e ≠ "" ∧ g' = g.
Proof.
  intros H. run_facade H; eauto 10.
Qed.

Lemma compile_panic_inv e opts ns g v g' :
  CompileWithOptionsAndNS e opts ns g = (Panics v, g') →
  e ≠ "" ∧ StrictEOF opts = true
  ∧ (∃ q0 p1, build e ns = (q0, Some p1, None)
              ∧ typ (r p1) ≠ itemEOF ∧ ¬ cut_in_text p1)
  ∧ v = PanicRuntime "slice bounds out of range" ∧ g' = g.
Proof.
  intros H. run_facade H; (split; [done|]); (split; [done|]);
    (split; [|done]); do 2 eexists; (split; [done|]); (split; [done|]);
    unfold cut_in_text, cut; done.
Qed.

Lemma append_empty (str : string) : str +:+ "" = str.
Proof.
  induction str as [|c str IH]; [done|].
  change (String c str +:+ "") with (String c (str +:+ "")). by f_equal.
Qed.

Lemma string_drop_suffix (n : nat) (str : string) :
  n ≤ String.length str →
  ∃ consumed, str = consumed +:+ string_drop n str
              ∧ String.length consumed = n.
Proof.
  revert str. induction n as [|n IH]; intros str Hn.
  - by exists "".
  - destruct str as [|c str]; simpl in *; [lia|].
    destruct (IH str) as (consumed & Heq & Hlen); [lia|].
    exists (String c consumed).
    change (String c consumed +:+ string_drop n str)
      with (String c (consumed +:+ string_drop n str)).
    split; [by rewrite <- Heq|simpl; by rewrite Hlen].
Qed.

(** X1: a compile that returns no error returns an expression: it holds
    the source text and the plan [build] returned, the source text is
    not empty, and the package variables are as before. *)
Theorem X1_no_error_means_expression e opts ns g exp g' :
  CompileWithOptionsAndNS e opts ns g = (Returns (exp, None), g') →
  ∃ q1 p, build e ns = (Some q1, p, None)
          ∧ exp = Some {| s := e; q := q1 |}
          ∧ Expr_String {| s := e; q := q1 |} = e
          ∧ e ≠ "" ∧ g' = g.
Proof.
  intros H. destruct (compile_success_inv _ _ _ _ _ _ H)
    as (q1 & p & Hb & -> & He & ->).
  by exists q1, p.
Qed.

(** X2: whatever the options, an expression they accept is accepted
    without them, with the same compiled expression: the options only
    ever reject. *)
Theorem X2_options_only_reject e opts ns g exp :
  CompileWithOptionsAndNS e opts ns g = (Returns (Some exp, None), g) →
  CompileWithOptionsAndNS e lenient ns g = (Returns (Some exp, None), g)
  ∧ CompileWithNS e ns g = (Returns (Some exp, None), g).
Proof.
  intros H. destruct (compile_success_inv _ _ _ _ _ _ H)
    as (q1 & p & Hb & [= ->] & He & _).
  assert (CompileWithOptionsAndNS e lenient ns g
          = (Returns (Some {| s := e; q := q1 |}, None), g)) as Hl.
  { rewrite compile_lenient by done. by rewrite Hb. }
  split; [exact Hl|]. exact Hl.
Qed.

(** X3: a compile panics in one situation only: strict options, no
    error from [build], a parser before the end marker, and the offset
    pos - currSize - 1 outside the scanner's text; the panic is the
    slice's run-time error and the package variables are as before.
    Without the strict option no entry point panics. *)
Theorem X3_panic_iff e opts ns g v g' :
  CompileWithOptionsAndNS e opts ns g = (Panics v, g')
  ↔ e ≠ "" ∧ StrictEOF opts = true
    ∧ (∃ q0 p1, build e ns = (q0, Some p1, None)
                ∧ typ (r p1) ≠ itemEOF ∧ ¬ cut_in_text p1)
    ∧ v = PanicRuntime "slice bounds out of range" ∧ g' = g.
Proof.
  split; [apply compile_panic_inv|].
  intros (He & Hs & (q0 & p1 & Hb & Ht & Hc) & -> & ->).
  destruct opts as [[]]; simpl in Hs; [|done].
  by eapply compile_strict_out_of_text.
Qed.

(** X4: in strict mode a trailing token is reported whether or not
    [build] returned a plan, and the message is the fixed prefix followed
    by what is left of the scanner's text after its first
    pos - currSize - 1 bytes; the undeclared-variable message is its
    prefix followed by the whole source text. *)
Theorem X4_error_messages e ns g :
  (∀ q0 p1,
    e ≠ "" → build e ns = (q0, Some p1, None) →
    typ (r p1) ≠ itemEOF → cut_in_text p1 →
    ∃ consumed rest,
      text (r p1) = consumed +:+ rest
      ∧ Z.of_nat (String.length consumed) = cut p1
      ∧ CompileWithOptionsAndNS e strict ns g
        = (Returns (None, Some (errorString
             ("unexpected token after end of expression: " +:+ rest))), g))
  ∧ (∀ p,
      e ≠ "" → build e ns = (None, p, None) →
      CompileWithOptionsAndNS e lenient ns g
      = (Returns (None, Some (errorString
           ("undeclared variable in XPath expression: " +:+ e))), g)).
Proof.
  split.
  - intros q0 p1 He Hb Ht Hc.
    destruct (string_drop_suffix (Z.to_nat (cut p1)) (text (r p1)))
      as (consumed & Heq & Hlen); [unfold cut_in_text in Hc; lia|].
    exists consumed, (string_drop (Z.to_nat (cut p1)) (text (r p1))).
    split; [exact Heq|]. split; [unfold cut_in_text in Hc; lia|].
    erewrite compile_strict_trailing_token by done.
    unfold fmt_Errorf. simpl. by rewrite append_empty.
  - intros p He Hb. rewrite compile_lenient by done. rewrite Hb.
    unfold fmt_Errorf. simpl. by rewrite append_empty.
Qed.
End FacadeMore.

(** * Further properties of evaluation *)

Section EvaluationMore.
Context {N Q : Type} `{!NodeNavigator N} `{!Query N Q}.

Implicit Types (t : NodeIterator Q) (σ : Store N) (expr : Expr Q).

(** X5: [Evaluate] never hands a plan to its caller and never changes
    the source text of the expression; the iterator it builds for a
    node-set is the one [Select] builds from the expression as the
    evaluation left it. *)
Theorem X5_Evaluate_wraps_plans expr root σ :
  (∀ plan, (Expr_Evaluate expr root σ).1.1 ≠ AQuery plan)
  ∧ Expr_String (Expr_Evaluate expr root σ).1.2 = Expr_String expr
  ∧ (∀ plan q1 σ1,
      query_Evaluate (q expr) root σ = (AQuery plan, q1, σ1) →
      (Expr_Evaluate expr root σ).1.1
      = ANodeIterator (Expr_Select (Expr_Evaluate expr root σ).1.2 root)).
Proof.
  unfold Expr_Evaluate, iteratorFunc_Current.
  destruct (query_Evaluate (q expr) root σ) as [[val q1] σ1] eqn:He.
  split; [|split].
  - intros plan. by destruct val.
  - by destruct val.
  - intros plan q2 σ2 [= -> -> ->]. done.
Qed.

(** X6: [MoveNext] allocates one navigator when [MoveTo] fails and none
    otherwise, and it leaves every navigator other than the one the
    iterator holds as the plan left it: the navigator the plan handed
    out is only read. *)
Theorem X6_MoveNext_writes_held_only t σ n q1 σ1 a b :
  query_Select (query t) (NodeIterator_Current t) σ = (Some n, q1, σ1) →
  σ1 !! NodeIterator_Current t = Some a → σ1 !! n = Some b →
  length (NodeIterator_MoveNext t σ).2
  = (if (MoveTo a b).1 then length σ1 else S (length σ1))
  ∧ (∀ l, l ≠ NodeIterator_Current t → l < length σ1 →
          (NodeIterator_MoveNext t σ).2 !! l = σ1 !! l)
  ∧ (n ≠ NodeIterator_Current t →
     (NodeIterator_MoveNext t σ).2 !! n = Some b).
Proof.
  unfold NodeIterator_Current. intros Hs Ha Hb.
  assert (∀ l, l ≠ node t → l < length σ1 →
               (NodeIterator_MoveNext t σ).2 !! l = σ1 !! l) as Hframe.
  { intros l Hl Hlt. destruct (lookup_lt_is_Some_2 σ1 l Hlt) as [c Hc].
    rewrite (MoveNext_frame t σ n q1 σ1 a b l c Hs Ha Hb Hc).
    by rewrite decide_False. }
  split; [|split].
  - destruct (MoveTo a b) as [[] a1] eqn:Hm; simpl.
    + erewrite MoveNext_moved by done. simpl. by rewrite length_insert.
    + erewrite MoveNext_copied by done. simpl.
      rewrite length_app, length_insert. simpl. lia.
  - exact Hframe.
  - intros Hne. rewrite Hframe; [done..|]. by eapply lookup_lt_Some.
Qed.

(** X7: with a nil navigator in the iterator, [MoveNext] still returns
    false when the plan yields no match, and panics on the call of
    [MoveTo] when the plan yields one; the navigators are as the plan
    left them in both cases. *)
Theorem X7_MoveNext_nil_navigator t σ n q1 σ1 :
  query_Select (query t) (NodeIterator_Current t) σ = (n, q1, σ1) →
  σ1 !! NodeIterator_Current t = None →
  NodeIterator_MoveNext t σ
  = (match n with
     | None => Returns (false, {| node := node t; query := q1 |})
     | Some _ => Panics (PanicRuntime "nil pointer dereference")
     end, σ1).
Proof.
  unfold NodeIterator_MoveNext, NodeIterator_Current. intros Hs Hnil.
  rewrite Hs. destruct n as [n|]; [|done]. simpl. by rewrite Hnil.
Qed.
End EvaluationMore.

Section WrappersMore.
Context {N Q : Type} `{!Query N Q} `{!Builder Q}.

(** X8: [MustCompile] and the package-level [Select] are decided by
    what [build] returns for the nil namespace map, whatever parser
    state it leaves: neither ever rejects trailing tokens.  On an error
    of [build], or no plan, [MustCompile] falls back to [nopQuery] and
    [Select] panics; on a plan, [MustCompile] returns the expression and
    [Select] an iterator over a [Clone] of the plan that holds
    [root]. *)
Theorem X8_wrappers_by_build (root : loc) (e : string) (g : Package) :
  e ≠ "" →
  MustCompile e g
  = (Returns (Some {| s := e;
                      q := match build e None with
                           | (Some q1, _, None) => q1
                           | _ => nopQuery
                           end |}), g)
  ∧ Select (N:=N) root e g
    = (match build e None with
       | (_, _, Some err) => Panics (PanicError err)
       | (None, _, None) =>
         Panics (PanicError (fmt_Errorf
           "undeclared variable in XPath expression: %s" e))
       | (Some q1, _, None) =>
         Returns {| node := root; query := query_Clone q1 |}
       end, g).
Proof.
  intros He. unfold MustCompile, Select, bind, Compile.
  change CompileOptions_zero with lenient.
  rewrite compile_lenient by done.
  by destruct (build e None) as [[[q1|] p] [err|]].
Qed.
End WrappersMore.

Section MoreOnTheFixture.
Import Fixture.

Lemma X1_no_error_means_expression_witness :
  ∃ q1 p, build "a" None = (Some q1, p, None)
          ∧ Some expr_a = Some {| s := "a"; q := q1 |}
          ∧ Expr_String {| s := "a"; q := q1 |} = "a"
          ∧ "a" ≠ "" ∧ Package_init = Package_init.
Proof.
  exact (X1_no_error_means_expression "a" strict None Package_init
           (Some expr_a) Package_init eq_refl).
Defined.

Lemma X2_options_only_reject_witness :
  CompileWithOptionsAndNS "a" lenient None Package_init
  = (Returns (Some expr_a, None), Package_init)
  ∧ CompileWithNS "a" None Package_init
    = (Returns (Some expr_a, None), Package_init).
Proof.
  exact (X2_options_only_reject "a" strict None Package_init expr_a eq_refl).
Defined.

Lemma X4_error_messages_witness :
  ∃ consumed rest,
    "a b" = consumed +:+ rest
    ∧ Z.of_nat (String.length consumed) = 1%Z
    ∧ CompileWithOptionsAndNS "a b" strict None Package_init
      = (Returns (None, Some (errorString
           ("unexpected token after end of expression: " +:+ rest))),
         Package_init).
Proof.
  refine (proj1 (X4_error_messages "a b" None Package_init)
            (Some (step "a")) (after "a b" itemName) _ eq_refl _ _).
  - discriminate.
  - discriminate.
  - unfold cut_in_text. vm_compute. split; discriminate.
Defined.

Lemma X5_Evaluate_wraps_plans_witness :
  (Expr_Evaluate expr_a 0 [at_root]).1.1
  = ANodeIterator (Expr_Select (Expr_Evaluate expr_a 0 [at_root]).1.2 0).
Proof.
  exact (proj2 (proj2 (X5_Evaluate_wraps_plans expr_a 0 [at_root]))
           (step "a") (step "a") [at_root] eq_refl).
Defined.

Lemma X6_MoveNext_writes_held_only_witness :
  length (NodeIterator_MoveNext
            {| node := 0; query := {| item := Some 1 |} |}
            [elsewhere; at_child 1]).2 = 3
  ∧ (∀ l, l ≠ 0 → l < 2 →
          (NodeIterator_MoveNext
             {| node := 0; query := {| item := Some 1 |} |}
             [elsewhere; at_child 1]).2 !! l
          = [elsewhere; at_child 1] !! l)
  ∧ (1 ≠ 0 →
     (NodeIterator_MoveNext
        {| node := 0; query := {| item := Some 1 |} |}
        [elsewhere; at_child 1]).2 !! 1 = Some (at_child 1)).
Proof.
  exact (X6_MoveNext_writes_held_only
           {| node := 0; query := {| item := Some 1 |} |}
           [elsewhere; at_child 1] 1 {| item := None |}
           [elsewhere; at_child 1] elsewhere (at_child 1)
           eq_refl eq_refl eq_refl).
Defined.

Lemma X7_MoveNext_nil_navigator_witness :
  NodeIterator_MoveNext {| node := 7; query := {| item := Some 0 |} |}
    [at_root]
  = (Panics (PanicRuntime "nil pointer dereference"), [at_root]).
Proof.
  exact (X7_MoveNext_nil_navigator
           {| node := 7; query := {| item := Some 0 |} |} [at_root]
           (Some 0) {| item := None |} [at_root] eq_refl eq_refl).
Defined.

Lemma X8_wrappers_by_build_witness :
  MustCompile "a b" Package_init
  = (Returns (Some {| s := "a b"; q := step "a" |}), Package_init)
  ∧ Select (N:=ListNav) 0 "a b" Package_init
    = (Returns {| node := 0; query := step "a" |}, Package_init).
Proof.
  refine (X8_wrappers_by_build (N:=ListNav) 0 "a b" Package_init _).
  discriminate.
Defined.
End MoreOnTheFixture.
